(** * aerodyn.py: blade-element momentum kernels and the linear rotor sweep

    A shallow embedding of [windenergytk/aerodyn.py] and the properties of
    its helper kernels, of the per-station tip-loss loop and of the sweep
    over the geometry table.

    Conventions of the embedding.
    - Scalars are real numbers: [numpy.cos], [numpy.sin], [numpy.tan],
      [numpy.exp], [numpy.sqrt], [numpy.arctan] and [numpy.pi] are read as
      [cos], [sin], [tan], [exp], [sqrt], [atan] and [PI].  The module only
      executes [from numpy import arctan, sin]; the embedding reads the name
      [numpy] as the NumPy module the calls are written against.
    - The module is Python 2 (its last line is a [print] statement), so [/]
      between two integers is floor division: [number_of_blades / 2] is
      [Z.div].
    - The [while] loop is run with a fuel that bounds the number of times
      its body may execute; exhausting it is reported as [OutOfFuel].
    - Local variables of a Python function outlive the loops that assign
      them, so the variables assigned in the body of the [while] loop are
      threaded from one station to the next as an optional [Frame].
    - Real arithmetic has no infinities and no NaN.  Where a property is
      about them, the kernels [q_terms], [calc_attack_angle] and [tip_loss]
      are embedded a second time, in [NumpyScalar], over numpy's float64
      scalars reduced to their special values: a finite real, an infinity
      or NaN. *)

From Stdlib Require Import Reals Lra Lia ZArith List String Bool.
Import ListNotations.
Open Scope R_scope.

(** * Part I: the code *)

(** ** Helper functions *)

(** Python's [x > y] on scalars. *)
Definition Rgtb (x y : R) : bool := if Rgt_dec x y then true else false.

Definition q_terms (local_pitch local_tsr lift_coef_slope lift_coef_intercept
                    local_solidity : R) : R * R * R :=
  let d1 := cos local_pitch - local_tsr * sin local_pitch in
  let d2 := sin local_pitch + local_tsr * cos local_pitch in
  let q1 := (d1 * lift_coef_slope) + ((4 * local_tsr / local_solidity) *
                                      cos local_pitch * d2) in
  let q2 := d2 * lift_coef_slope + (d1 * lift_coef_intercept -
                                    (4 * local_tsr / local_solidity) *
                                    (d1 * cos local_pitch - d2 *
                                     sin local_pitch)) in
  let q3 := d2 * lift_coef_intercept - ((4 * local_tsr / local_solidity) *
                                        d1 * sin local_pitch) in
  (q1, q2, q3).

Definition calc_attack_angle (q1 q2 q3 : R) : R :=
  - (sqrt (q2 ^ 2 - 4 * q1 * q3) - q2) / (2 * q1).

Definition calc_axial_factor (local_tip_loss lift_coefficient angle_of_rwind
                              local_solidity : R) : R :=
  1 / (1 + (4 * local_tip_loss * (sin angle_of_rwind ^ 2) /
            (local_solidity * lift_coefficient * cos angle_of_rwind))).

Definition calc_angular_factor (axial_induc_factor angle_of_rwind
                                local_tsr : R) : R :=
  axial_induc_factor * tan angle_of_rwind / local_tsr.

Definition tip_loss (number_of_blades : Z)
                    (fractional_radius angle_of_rwind : R) : R :=
  let tmp := exp (- IZR (number_of_blades / 2) * (1 - fractional_radius) /
                  (fractional_radius * sin angle_of_rwind)) in
  if Rgtb tmp 0 && Rgtb (1 - tmp ^ 2) 0
  then atan ((sqrt (1 - tmp ^ 2) / tmp) / (PI / 2))
  else 1.


(** ** Main functions *)

(** One line of [rct_matrix]: fractional radius, chord and twist, read by
    the code as [rct_matrix[j][0]], [rct_matrix[j][1]] and
    [rct_matrix[j][2]]. *)
Record Station := mkStation {
  fradius : R;
  chord : R;
  twist : R
}.


(** The variables assigned by the body of the [while] loop, other than the
    two the loop is initialised with. *)
Record Frame := mkFrame {
  angle_of_attack : R;
  angle_of_rwind : R;
  lift_coefficient : R;
  axial_induc_factor : R;
  angular_induc_factor : R;
  drag_coefficient : R
}.

Record LoopState := mkLoopState {
  local_tip_loss : R;
  tip_loss_epsilon : R;
  frame : option Frame
}.


Inductive error : Type :=
| OutOfFuel
| UnboundLocalError.

Inductive outcome (A : Type) : Type :=
| Done (a : A)
| Raise (e : error).
Arguments Done {A} a.
Arguments Raise {A} e.

Definition bind {A B : Type} (m : outcome A) (k : A -> outcome B) : outcome B :=
  match m with
  | Done a => k a
  | Raise e => Raise e
  end.

Notation "x <- m ;; k" := (bind m (fun x => k))
  (at level 61, m at next level, right associativity).


(** What [optimum_rotor] does: it returns its matrix, or the indexing
    [tip_speed_ratio[r]] raises [IndexError]. *)
Inductive design (A : Type) : Type :=
| Returned (a : A)
| IndexError.
Arguments Returned {A} a.
Arguments IndexError {A}.

(** The body of [for r in range(sections)]: the row appended for the index
    [r], a Python list of the integer [r] and of two floats. *)
Definition optimum_rotor_row (lift_coefficient : R) (tip_speed_ratio : list R)
                             (number_blades : Z) (r : nat)
  : design (list R) :=
  match nth_error tip_speed_ratio r with
  | None => IndexError
  | Some tsr_r =>
      let twist := atan (2 / (3 * tsr_r)) in
      let chord := (8 * PI * INR r * sin twist) /
                   (3 * IZR number_blades * lift_coefficient * tsr_r) in
      Returned [INR r; twist; chord]
  end.

Fixpoint optimum_rotor_loop (lift_coefficient : R) (tip_speed_ratio : list R)
                            (number_blades : Z) (indices : list nat)
                            (sct_matrix : list (list R))
  : design (list (list R)) :=
  match indices with
  | [] => Returned sct_matrix
  | r :: indices' =>
      match optimum_rotor_row lift_coefficient tip_speed_ratio
                              number_blades r with
      | IndexError => IndexError
      | Returned row =>
          optimum_rotor_loop lift_coefficient tip_speed_ratio number_blades
                             indices' (sct_matrix ++ [row])
      end
  end.

(** [range(sections)] is empty for a negative [sections]. *)
Definition optimum_rotor (lift_coefficient angle_of_attack : R)
                         (tip_speed_ratio : list R)
                         (total_radius hub_radius : R)
                         (number_blades : Z) (sections : Z)
  : design (list (list R)) :=
  optimum_rotor_loop lift_coefficient tip_speed_ratio number_blades
                     (seq 0 (Z.to_nat sections)) [].

(** The parameters of [linear_rotor_analysis] other than [rct_matrix] are
    the variables of the section; [hub_radius] is never read. *)
Section LinearRotorAnalysis.

Variables (tip_speed_ratio : R) (number_blades : Z)
          (pitch_0 blade_radius hub_radius lift_coef_slope
           lift_coef_intercept drag_coef_slope drag_coef_intercept : R).

Section Station.

(** Values fixed before the [while] loop of one station. *)
Variables (fractional_radius local_tsr local_solidity local_pitch : R).

(** One execution of the body of the [while] loop. *)
Definition loop_body (s : LoopState) : LoopState :=
  let '(q1, q2, q3) := q_terms local_pitch local_tsr lift_coef_slope
                               lift_coef_intercept local_solidity in
  let angle_of_attack := calc_attack_angle q1 q2 q3 in
  let angle_of_rwind := local_pitch + angle_of_attack in
  let lift_coefficient :=
    (angle_of_attack * lift_coef_slope) + lift_coef_intercept in
  let axial_induc_factor :=
    calc_axial_factor (local_tip_loss s) lift_coefficient angle_of_rwind
                      local_solidity in
  let angular_induc_factor :=
    calc_angular_factor axial_induc_factor angle_of_rwind local_tsr in
  let drag_coefficient :=
    (drag_coef_slope * angle_of_attack) + drag_coef_intercept in
  let old_local_tip_loss := local_tip_loss s in
  let local_tip_loss :=
    tip_loss number_blades fractional_radius angle_of_rwind in
  let tip_loss_epsilon := Rabs (local_tip_loss - old_local_tip_loss) in
  mkLoopState local_tip_loss tip_loss_epsilon
    (Some (mkFrame angle_of_attack angle_of_rwind lift_coefficient
                   axial_induc_factor angular_induc_factor
                   drag_coefficient)).


End Station.





End LinearRotorAnalysis.

(** [nonlinear_rotor_analysis] returns a dict literal; a dict is modelled
    as an association list from keys to Python values. *)
Inductive pyvalue : Type :=
| PyBool (b : bool)
| PyFloat (x : R).

Definition dict := list (string * pyvalue).

Fixpoint dict_get (d : dict) (k : string) : option pyvalue :=
  match d with
  | [] => None
  | (k', v) :: d' => if String.eqb k k' then Some v else dict_get d' k
  end.

Definition nonlinear_rotor_analysis (rct_matrix : list Station)
    (angle_of_attack lift_coefficient drag_coefficient : R) : dict :=
  [ ("total_radius"%string, PyBool false);
    ("tip_loss_factor"%string, PyBool false);
    ("angle_of_attack"%string, PyBool false);
    ("angle_of_rwind"%string, PyBool false);
    ("lift_coefficient"%string, PyBool false);
    ("drag_coefficient"%string, PyBool false);
    ("axial_induction_factor"%string, PyBool false);
    ("angular_induction_factor"%string, PyBool false);
    ("local_power_coefficient"%string, PyBool false) ].

(** ** [q_terms] over numpy scalars

    A numpy float64 is kept as one of its special values or as the real it
    stands for; arithmetic on finite values is exact (no rounding, overflow
    or underflow) and the special values follow IEEE 754 as numpy applies
    it to scalars: dividing by zero raises nothing and gives an infinity, or
    NaN for 0/0.  Zero carries no sign: every zero behaves as +0.0. *)
Inductive npfloat : Type :=
| Fin (x : R)
| Inf (positive : bool)
| NaN.

(** [Some true] for a positive real, [Some false] for a negative one. *)
Definition np_sign (x : R) : option bool :=
  if Rlt_dec 0 x then Some true
  else if Rlt_dec x 0 then Some false
  else None.

Definition np_neg (a : npfloat) : npfloat :=
  match a with
  | Fin x => Fin (- x)
  | Inf s => Inf (negb s)
  | NaN => NaN
  end.

Definition np_add (a b : npfloat) : npfloat :=
  match a, b with
  | NaN, _ | _, NaN => NaN
  | Fin x, Fin y => Fin (x + y)
  | Inf s, Inf t => if Bool.eqb s t then Inf s else NaN
  | Inf s, Fin _ | Fin _, Inf s => Inf s
  end.

Definition np_sub (a b : npfloat) : npfloat := np_add a (np_neg b).

Definition np_mul (a b : npfloat) : npfloat :=
  match a, b with
  | NaN, _ | _, NaN => NaN
  | Fin x, Fin y => Fin (x * y)
  | Inf s, Inf t => Inf (Bool.eqb s t)
  | Inf s, Fin y | Fin y, Inf s =>
      match np_sign y with
      | Some t => Inf (Bool.eqb s t)
      | None => NaN
      end
  end.

Definition np_div (a b : npfloat) : npfloat :=
  match a, b with
  | NaN, _ | _, NaN => NaN
  | Fin x, Fin y =>
      match np_sign y with
      | Some _ => Fin (x / y)
      | None => match np_sign x with
                | Some s => Inf s
                | None => NaN
                end
      end
  | Fin _, Inf _ => Fin 0
  | Inf s, Fin y =>
      match np_sign y with
      | Some t => Inf (Bool.eqb s t)
      | None => Inf s
      end
  | Inf _, Inf _ => NaN
  end.

(** [numpy.cos] and [numpy.sin]: NaN outside the finite values. *)
Definition np_cos (a : npfloat) : npfloat :=
  match a with
  | Fin x => Fin (cos x)
  | _ => NaN
  end.

Definition np_sin (a : npfloat) : npfloat :=
  match a with
  | Fin x => Fin (sin x)
  | _ => NaN
  end.



(** [numpy.exp], [numpy.sqrt] and [numpy.arctan] on the special values. *)
Definition np_exp (a : npfloat) : npfloat :=
  match a with
  | Fin x => Fin (exp x)
  | Inf true => Inf true
  | Inf false => Fin 0
  | NaN => NaN
  end.

Definition np_sqrt (a : npfloat) : npfloat :=
  match a with
  | Fin x => if Rlt_dec x 0 then NaN else Fin (sqrt x)
  | Inf true => Inf true
  | Inf false => NaN
  | NaN => NaN
  end.

Definition np_arctan (a : npfloat) : npfloat :=
  match a with
  | Fin x => Fin (atan x)
  | Inf true => Fin (PI / 2)
  | Inf false => Fin (- (PI / 2))
  | NaN => NaN
  end.

(** [a > b]: false as soon as one side is NaN. *)
Definition np_gtb (a b : npfloat) : bool :=
  match a, b with
  | NaN, _ | _, NaN => false
  | Fin x, Fin y => Rgtb x y
  | Inf s, Fin _ => s
  | Fin _, Inf t => negb t
  | Inf s, Inf t => s && negb t
  end.

Declare Scope np_scope.
Delimit Scope np_scope with np.
Bind Scope np_scope with npfloat.
Infix "+" := np_add : np_scope.
Infix "-" := np_sub : np_scope.
Infix "*" := np_mul : np_scope.
Infix "/" := np_div : np_scope.

Module NumpyScalar.

Definition q_terms (local_pitch local_tsr lift_coef_slope lift_coef_intercept
                    local_solidity : npfloat)
  : npfloat * npfloat * npfloat :=
  (let d1 := np_cos local_pitch - local_tsr * np_sin local_pitch in
   let d2 := np_sin local_pitch + local_tsr * np_cos local_pitch in
   let q1 := (d1 * lift_coef_slope) +
             ((Fin 4 * local_tsr / local_solidity) *
              np_cos local_pitch * d2) in
   let q2 := d2 * lift_coef_slope + (d1 * lift_coef_intercept -
                                     (Fin 4 * local_tsr / local_solidity) *
                                     (d1 * np_cos local_pitch - d2 *
                                      np_sin local_pitch)) in
   let q3 := d2 * lift_coef_intercept -
             ((Fin 4 * local_tsr / local_solidity) *
              d1 * np_sin local_pitch) in
   (q1, q2, q3))%np.

Definition calc_attack_angle (q1 q2 q3 : npfloat) : npfloat :=
  (np_neg (np_sqrt (q2 * q2 - Fin 4 * q1 * q3) - q2) / (Fin 2 * q1))%np.

Definition tip_loss (number_of_blades : Z)
                    (fractional_radius angle_of_rwind : npfloat) : npfloat :=
  (let tmp := np_exp (Fin (- IZR (number_of_blades / 2)) *
                      (Fin 1 - fractional_radius) /
                      (fractional_radius * np_sin angle_of_rwind)) in
   if np_gtb tmp (Fin 0) && np_gtb (Fin 1 - tmp * tmp) (Fin 0)
   then np_arctan ((np_sqrt (Fin 1 - tmp * tmp) / tmp) / (Fin PI / Fin 2))
   else Fin 1)%np.

End NumpyScalar.

(** * Part II: definitions the statements use *)



(** The residual of the quadratic whose coefficients [q_terms] builds. *)
Definition residual (q1 q2 q3 alpha : R) : R :=
  q1 * alpha ^ 2 + q2 * alpha + q3.

(** The value [tip_loss] binds to [tmp]. *)
Definition tip_loss_tmp (number_of_blades : Z)
                        (fractional_radius angle_of_rwind : R) : R :=
  exp (- IZR (number_of_blades / 2) * (1 - fractional_radius) /
       (fractional_radius * sin angle_of_rwind)).



Section LoopClosedForm.

Variables (number_blades : Z)
          (lift_coef_slope lift_coef_intercept drag_coef_slope
           drag_coef_intercept : R)
          (fractional_radius local_tsr local_solidity local_pitch : R).





End LoopClosedForm.

Section StationClosedForm.

Variables (tip_speed_ratio : R) (number_blades : Z)
          (pitch_0 blade_radius lift_coef_slope lift_coef_intercept
           drag_coef_slope drag_coef_intercept : R).




End StationClosedForm.

(** The twist and the chord [optimum_rotor] computes for the index [r] and
    the entry [tsr_r] of [tip_speed_ratio], and the row it appends. *)
Definition design_twist (tsr_r : R) : R := atan (2 / (3 * tsr_r)).

Definition design_chord (lift_coefficient : R) (number_blades : Z)
                        (r : nat) (tsr_r : R) : R :=
  (8 * PI * INR r * sin (design_twist tsr_r)) /
  (3 * IZR number_blades * lift_coefficient * tsr_r).

Definition design_row (lift_coefficient : R) (number_blades : Z)
                      (r : nat) (tsr_r : R) : list R :=
  [INR r; design_twist tsr_r; design_chord lift_coefficient number_blades
                                           r tsr_r].

(** How [linear_rotor_analysis] reads one line of its table: the entries
    0, 1 and 2 as fractional radius, chord and twist. *)
Definition station_of_row (row : list R) : option Station :=
  match nth_error row 0, nth_error row 1, nth_error row 2 with
  | Some f, Some c, Some t => Some (mkStation f c t)
  | _, _, _ => None
  end.


Definition nonlinear_keys : list string :=
  [ "total_radius"; "tip_loss_factor"; "angle_of_attack"; "angle_of_rwind";
    "lift_coefficient"; "drag_coefficient"; "axial_induction_factor";
    "angular_induction_factor"; "local_power_coefficient" ]%string.

(** * Part III: properties *)

(** ** Comparisons, division and the error monad *)

Lemma Rgtb_true (x y : R) : Rgtb x y = true <-> x > y.
Proof.
  unfold Rgtb. destruct (Rgt_dec x y); split; intros; auto; discriminate.
Qed.

Lemma Rgtb_false (x y : R) : Rgtb x y = false <-> x <= y.
Proof.
  unfold Rgtb.
  destruct (Rgt_dec x y); split; intros; auto; try discriminate; lra.
Qed.

Lemma bind_Done {A B : Type} (m : outcome A) (k : A -> outcome B) (b : B) :
  bind m k = Done b -> exists a, m = Done a /\ k a = Done b.
Proof.
  destruct m as [a | e]; simpl; intros H; [exists a; auto | discriminate].
Qed.










(** ** The attack-angle kernel *)

(** What [calc_attack_angle] returns is the opposite of a root: outside the
    degenerate cases its negation cancels the residual. *)
Lemma calc_attack_angle_mirror (q1 q2 q3 : R) :
  q1 <> 0 -> 0 <= q2 ^ 2 - 4 * q1 * q3 ->
  residual q1 q2 q3 (- calc_attack_angle q1 q2 q3) = 0.
Proof.
  intros Hq HD. unfold residual, calc_attack_angle.
  pose proof (sqrt_sqrt _ HD) as Hs.
  set (s := sqrt _) in *.
  field_simplify; [|assumption].
  replace (s ^ 2) with (s * s) by ring. rewrite Hs. field. assumption.
Qed.

(** The residual at the returned angle itself is twice the linear term. *)
Lemma calc_attack_angle_residual (q1 q2 q3 : R) :
  q1 <> 0 -> 0 <= q2 ^ 2 - 4 * q1 * q3 ->
  residual q1 q2 q3 (calc_attack_angle q1 q2 q3) =
  2 * q2 * calc_attack_angle q1 q2 q3.
Proof.
  intros Hq HD. pose proof (calc_attack_angle_mirror q1 q2 q3 Hq HD) as H.
  unfold residual in *. lra.
Qed.




(** ** The tip-loss kernel *)

Lemma tip_loss_then (B : Z) (r phi : R) :
  0 < tip_loss_tmp B r phi -> 0 < 1 - tip_loss_tmp B r phi ^ 2 ->
  tip_loss B r phi =
  atan ((sqrt (1 - tip_loss_tmp B r phi ^ 2) / tip_loss_tmp B r phi) /
        (PI / 2)).
Proof.
  intros H1 H2. unfold tip_loss. fold (tip_loss_tmp B r phi).
  assert (E1 : Rgtb (tip_loss_tmp B r phi) 0 = true) by (apply Rgtb_true; lra).
  assert (E2 : Rgtb (1 - tip_loss_tmp B r phi ^ 2) 0 = true)
    by (apply Rgtb_true; lra).
  rewrite E1, E2. reflexivity.
Qed.

Lemma tip_loss_else (B : Z) (r phi : R) :
  tip_loss_tmp B r phi <= 0 \/ 1 - tip_loss_tmp B r phi ^ 2 <= 0 ->
  tip_loss B r phi = 1.
Proof.
  intros H. unfold tip_loss. fold (tip_loss_tmp B r phi).
  destruct H as [H | H]; apply Rgtb_false in H; rewrite H;
    [reflexivity | rewrite andb_false_r; reflexivity].
Qed.

Lemma tip_loss_cases (B : Z) (r phi : R) :
  tip_loss B r phi = 1 \/
  (0 < tip_loss_tmp B r phi < 1 /\
   tip_loss B r phi =
   atan ((sqrt (1 - tip_loss_tmp B r phi ^ 2) / tip_loss_tmp B r phi) /
         (PI / 2))).
Proof.
  destruct (Rle_or_lt (tip_loss_tmp B r phi) 0) as [H | H];
    [left; apply tip_loss_else; auto|].
  destruct (Rle_or_lt (1 - tip_loss_tmp B r phi ^ 2) 0) as [H' | H'];
    [left; apply tip_loss_else; auto|].
  right. split; [nra | apply tip_loss_then; assumption].
Qed.




(** The same on the value the code itself binds to [tmp]. *)
Lemma tip_loss_fallback_tmp (B : Z) (r phi : R) :
  tip_loss_tmp B r phi <= 0 \/ 1 - tip_loss_tmp B r phi ^ 2 <= 0 <->
  ~ (tip_loss_tmp B r phi > 0 /\ 1 - tip_loss_tmp B r phi ^ 2 > 0).
Proof. split; intros H; lra. Qed.

(** *** Where the arctangent is taken

    [tip_loss] divides by [pi/2] inside the argument of the arctangent, so
    its result ranges up to [PI / 2] rather than up to 1. *)







(** The interval [tip_loss] does stay in. *)
Lemma tip_loss_range (B : Z) (r phi : R) :
  0 < tip_loss B r phi < PI / 2.
Proof.
  pose proof PI2_1 as Hpi.
  destruct (tip_loss_cases B r phi) as [E | [[H0 H1] E]]; rewrite E.
  - lra.
  - split; [|apply atan_bound].
    rewrite <- atan_0. apply atan_increasing.
    pose proof PI_RGT_0.
    assert (0 < sqrt (1 - tip_loss_tmp B r phi ^ 2))
      by (apply sqrt_lt_R0; nra).
    apply Rdiv_lt_0_compat; [apply Rdiv_lt_0_compat|]; lra.
Qed.

(** ** The per-station tip-loss loop *)

Section LoopProperties.

Variables (number_blades : Z)
          (lift_coef_slope lift_coef_intercept drag_coef_slope
           drag_coef_intercept : R)
          (fractional_radius local_tsr local_solidity local_pitch : R).

Let body := loop_body number_blades lift_coef_slope lift_coef_intercept
                      drag_coef_slope drag_coef_intercept
                      fractional_radius local_tsr local_solidity
                      local_pitch.




(** The body ignores the frame and the epsilon it is entered with. *)
Lemma loop_body_reads_tip_loss_only (s s' : LoopState) :
  local_tip_loss s = local_tip_loss s' -> body s = body s'.
Proof.
  intros E. unfold body, loop_body.
  destruct (q_terms _ _ _ _ _) as [[q1 q2] q3]. rewrite E. reflexivity.
Qed.









End LoopProperties.


(** ** The sweep over the geometry table *)

Section SweepProperties.

Variables (tip_speed_ratio : R) (number_blades : Z)
          (pitch_0 blade_radius lift_coef_slope lift_coef_intercept
           drag_coef_slope drag_coef_intercept : R).







End SweepProperties.





(** ** The non-linear variant *)

(** C9.  Whatever its arguments, [nonlinear_rotor_analysis] returns one and
    the same dict: its keys are the nine field names and every one of them
    is bound to [False]. *)
Theorem nonlinear_rotor_analysis_constant
    (rct_matrix : list Station)
    (angle_of_attack lift_coefficient drag_coefficient : R) :
  let d := nonlinear_rotor_analysis rct_matrix angle_of_attack
                                    lift_coefficient drag_coefficient in
  d = nonlinear_rotor_analysis [] 0 0 0 /\
  d = map (fun k => (k, PyBool false)) nonlinear_keys /\
  map fst d = nonlinear_keys /\
  NoDup (map fst d) /\
  List.length d = 9%nat /\
  (forall k, In k nonlinear_keys -> dict_get d k = Some (PyBool false)) /\
  (forall k, ~ In k nonlinear_keys -> dict_get d k = None).
Proof.
  intros d. unfold d, nonlinear_rotor_analysis, nonlinear_keys.
  split; [reflexivity|]. split; [reflexivity|]. split; [reflexivity|].
  split.
  { simpl. repeat constructor; simpl; intuition discriminate. }
  split; [reflexivity|]. split.
  - intros k Hk. simpl in Hk.
    repeat (destruct Hk as [<- | Hk]; [reflexivity|]). contradiction.
  - intros k Hk. simpl in Hk. simpl.
    repeat match goal with
    | |- context [String.eqb k ?s] =>
        destruct (String.eqb_spec k s) as [-> | _];
        [exfalso; apply Hk; tauto|]
    end.
    reflexivity.
Qed.

(** ** [q_terms] at zero solidity *)

Lemma np_sign_pos (x : R) : 0 < x -> np_sign x = Some true.
Proof.
  intros H. unfold np_sign.
  destruct (Rlt_dec 0 x); [reflexivity | contradiction].
Qed.

Lemma np_sign_neg (x : R) : x < 0 -> np_sign x = Some false.
Proof.
  intros H. unfold np_sign.
  destruct (Rlt_dec 0 x); [lra|].
  destruct (Rlt_dec x 0); [reflexivity | contradiction].
Qed.

Lemma np_sign_zero : np_sign 0 = None.
Proof.
  unfold np_sign. destruct (Rlt_dec 0 0); [lra|].
  destruct (Rlt_dec 0 0); [lra | reflexivity].
Qed.

Lemma np_sign_nonzero (x : R) : x <> 0 -> exists s, np_sign x = Some s.
Proof.
  intros H. destruct (Rtotal_order x 0) as [Hx | [Hx | Hx]].
  - exists false. apply np_sign_neg, Hx.
  - contradiction.
  - exists true. apply np_sign_pos, Hx.
Qed.






Lemma np_div_fin (x y : R) : y <> 0 -> (Fin x / Fin y)%np = Fin (x / y).
Proof.
  intros H. destruct (np_sign_nonzero y H) as [s E]. simpl. rewrite E.
  reflexivity.
Qed.

Lemma np_mul_inf_pos (s : bool) (y : R) :
  0 < y -> (Inf s * Fin y)%np = Inf s.
Proof.
  intros H. simpl. rewrite (np_sign_pos y H). destruct s; reflexivity.
Qed.

(** Away from zero solidity the two embeddings of [q_terms] agree on
    finite arguments. *)
Lemma q_terms_numpy_finite (p tsr slope intercept solidity : R) :
  solidity <> 0 ->
  NumpyScalar.q_terms (Fin p) (Fin tsr) (Fin slope) (Fin intercept)
                      (Fin solidity) =
  let '(q1, q2, q3) := q_terms p tsr slope intercept solidity in
  (Fin q1, Fin q2, Fin q3).
Proof.
  intros H. unfold NumpyScalar.q_terms, q_terms, np_cos, np_sin.
  cbn [np_mul]. rewrite (np_div_fin _ _ H).
  cbn [np_mul np_add np_sub np_neg].
  unfold Rminus. reflexivity.
Qed.




(** NaN does appear where a factor of the infinite quotient vanishes: at
    zero pitch the third term is NaN, the first two are infinite. *)
Lemma q_terms_zero_solidity_zero_pitch :
  NumpyScalar.q_terms (Fin 0) (Fin 1) (Fin (573 / 100)) (Fin (3 / 10))
                      (Fin 0) =
  (Inf true, Inf false, NaN).
Proof.
  unfold NumpyScalar.q_terms, np_cos, np_sin. rewrite cos_0, sin_0.
  cbn [np_mul np_add np_sub np_neg np_div].
  rewrite np_sign_zero, (np_sign_pos (4 * 1)) by lra.
  rewrite !np_mul_inf_pos by lra.
  cbn [np_mul]. rewrite np_sign_zero. reflexivity.
Qed.

(** * Part IV: further properties of the kernels and of [optimum_rotor] *)

(** ** The kernels over the reals *)







(** ** The tip-loss kernel over the reals *)







(** ** The kernels over numpy scalars *)








(** ** [optimum_rotor] *)

Lemma optimum_rotor_row_found (lift_coefficient : R) (tip_speed_ratio : list R)
                              (number_blades : Z) (r : nat) :
  (r < List.length tip_speed_ratio)%nat ->
  optimum_rotor_row lift_coefficient tip_speed_ratio number_blades r =
  Returned (design_row lift_coefficient number_blades r
                       (nth r tip_speed_ratio 0)).
Proof.
  intros Hr. unfold optimum_rotor_row.
  rewrite (nth_error_nth' tip_speed_ratio 0 Hr). reflexivity.
Qed.

Lemma optimum_rotor_row_missing (lift_coefficient : R)
                                (tip_speed_ratio : list R)
                                (number_blades : Z) (r : nat) :
  (List.length tip_speed_ratio <= r)%nat ->
  optimum_rotor_row lift_coefficient tip_speed_ratio number_blades r =
  IndexError.
Proof.
  intros Hr. unfold optimum_rotor_row.
  apply nth_error_None in Hr. rewrite Hr. reflexivity.
Qed.

Lemma optimum_rotor_loop_rows (lift_coefficient : R) (tip_speed_ratio : list R)
                              (number_blades : Z) (n : nat) :
  forall (start : nat) (sct_matrix : list (list R)),
  (start + n <= List.length tip_speed_ratio)%nat ->
  optimum_rotor_loop lift_coefficient tip_speed_ratio number_blades
                     (seq start n) sct_matrix =
  Returned (sct_matrix ++
            map (fun r => design_row lift_coefficient number_blades r
                                     (nth r tip_speed_ratio 0))
                (seq start n)).
Proof.
  induction n as [|n IH]; intros start sct_matrix Hle.
  - simpl. rewrite app_nil_r. reflexivity.
  - cbn [seq optimum_rotor_loop map].
    rewrite optimum_rotor_row_found by lia.
    rewrite IH by lia. rewrite <- app_assoc. reflexivity.
Qed.

Lemma optimum_rotor_loop_index_error (lift_coefficient : R)
                                     (tip_speed_ratio : list R)
                                     (number_blades : Z) (n : nat) :
  forall (start : nat) (sct_matrix : list (list R)),
  (start <= List.length tip_speed_ratio < start + n)%nat ->
  optimum_rotor_loop lift_coefficient tip_speed_ratio number_blades
                     (seq start n) sct_matrix = IndexError.
Proof.
  induction n as [|n IH]; intros start sct_matrix Hle; [lia|].
  cbn [seq optimum_rotor_loop].
  destruct (Nat.eq_dec start (List.length tip_speed_ratio)) as [E | NE].
  - rewrite optimum_rotor_row_missing by lia. reflexivity.
  - rewrite optimum_rotor_row_found by lia. apply IH. lia.
Qed.





Lemma optimum_rotor_returned_row
    (lift_coefficient angle_of_attack : R) (tip_speed_ratio : list R)
    (total_radius hub_radius : R) (number_blades sections : Z)
    (rows : list (list R)) (r : nat) (row : list R) :
  optimum_rotor lift_coefficient angle_of_attack tip_speed_ratio
                total_radius hub_radius number_blades sections =
  Returned rows ->
  nth_error rows r = Some row ->
  exists tsr_r,
    nth_error tip_speed_ratio r = Some tsr_r /\
    row = design_row lift_coefficient number_blades r tsr_r.
Proof.
  intros Hret Hrow. unfold optimum_rotor in Hret.
  destruct (Nat.le_gt_cases (Z.to_nat sections)
                            (List.length tip_speed_ratio)) as [Hle | Hgt].
  - rewrite optimum_rotor_loop_rows in Hret by lia.
    injection Hret as <-. cbn [app] in Hrow.
    rewrite nth_error_map, nth_error_seq in Hrow.
    destruct (Nat.ltb_spec r (Z.to_nat sections)) as [Hlt | Hge];
      [|discriminate].
    cbn [option_map Nat.add] in Hrow. injection Hrow as <-.
    exists (nth r tip_speed_ratio 0).
    split; [apply nth_error_nth'; lia | reflexivity].
  - rewrite optimum_rotor_loop_index_error in Hret by lia. discriminate.
Qed.

Lemma design_twist_bounds (tsr_r : R) :
  0 < tsr_r -> 0 < design_twist tsr_r < PI / 2.
Proof.
  intros Ht. unfold design_twist. split; [|apply atan_bound].
  rewrite <- atan_0. apply atan_increasing.
  apply Rdiv_lt_0_compat; lra.
Qed.

(** X12.  For positive tip-speed ratios, a positive lift coefficient and a
    positive blade count, every row [r, twist, chord] returned by
    [optimum_rotor] has its twist strictly between 0 and pi/2 and a chord
    that is not negative; the chord is zero exactly in the row of index
    0. *)
Theorem optimum_rotor_geometry
    (lift_coefficient angle_of_attack : R) (tip_speed_ratio : list R)
    (total_radius hub_radius : R) (number_blades sections : Z)
    (rows : list (list R)) (r : nat) (row : list R) :
  Forall (fun t => 0 < t) tip_speed_ratio ->
  0 < lift_coefficient -> (0 < number_blades)%Z ->
  optimum_rotor lift_coefficient angle_of_attack tip_speed_ratio
                total_radius hub_radius number_blades sections =
  Returned rows ->
  nth_error rows r = Some row ->
  exists twist chord,
    row = [INR r; twist; chord] /\
    0 < twist < PI / 2 /\
    0 <= chord /\
    (chord = 0 <-> r = 0%nat).
Proof.
  intros Hpos HCl HB Hret Hrow.
  destruct (optimum_rotor_returned_row _ _ _ _ _ _ _ _ _ _ Hret Hrow)
    as [tsr_r [Htsr ->]].
  assert (Ht : 0 < tsr_r).
  { rewrite Forall_forall in Hpos. apply Hpos.
    apply nth_error_In with (n := r). exact Htsr. }
  pose proof (design_twist_bounds tsr_r Ht) as [Htw0 Htw1].
  assert (Hsin : 0 < sin (design_twist tsr_r)).
  { apply sin_gt_0; [exact Htw0|]. pose proof PI_RGT_0. lra. }
  assert (HBr : 0 < IZR number_blades) by (apply IZR_lt; exact HB).
  assert (Hden : 0 < 3 * IZR number_blades * lift_coefficient * tsr_r).
  { repeat apply Rmult_lt_0_compat; lra. }
  pose proof PI_RGT_0 as Hpi.
  exists (design_twist tsr_r),
         (design_chord lift_coefficient number_blades r tsr_r).
  split; [reflexivity|]. split; [split; assumption|].
  unfold design_chord.
  assert (Hr : 0 <= INR r) by apply pos_INR.
  split.
  - apply Rle_mult_inv_pos; [|exact Hden].
    apply Rmult_le_pos; [apply Rmult_le_pos|]; lra.
  - split.
    + intros E.
      destruct r as [|r']; [reflexivity|]. exfalso.
      assert (Hr' : 0 < INR (S r')) by (apply lt_0_INR; lia).
      assert (0 < 8 * PI * INR (S r') * sin (design_twist tsr_r) /
                  (3 * IZR number_blades * lift_coefficient * tsr_r)).
      { apply Rdiv_lt_0_compat; [|exact Hden].
        apply Rmult_lt_0_compat; [apply Rmult_lt_0_compat|]; lra. }
      lra.
    + intros ->. simpl INR. unfold Rdiv. ring.
Qed.

Lemma optimum_rotor_geometry_witness :
  exists twist chord,
    design_row 1 3 1 2 = [INR 1; twist; chord] /\
    0 < twist < PI / 2 /\
    0 <= chord /\
    (chord = 0 <-> 1%nat = 0%nat).
Proof.
  apply (optimum_rotor_geometry 1 0 [1; 2; 3] 20 0 3 2
           [design_row 1 3 0 1; design_row 1 3 1 2] 1 (design_row 1 3 1 2)).
  - repeat constructor; lra.
  - lra.
  - lia.
  - reflexivity.
  - reflexivity.
Defined.

(** X13.  A row returned by [optimum_rotor], read the way
    [linear_rotor_analysis] reads a line of its table (entries 0, 1, 2 as
    fractional radius, chord, twist), gives the row index as fractional
    radius, the twist angle as chord and the chord as twist. *)
Theorem optimum_rotor_row_as_station
    (lift_coefficient angle_of_attack : R) (tip_speed_ratio : list R)
    (total_radius hub_radius : R) (number_blades sections : Z)
    (rows : list (list R)) (r : nat) (row : list R) :
  optimum_rotor lift_coefficient angle_of_attack tip_speed_ratio
                total_radius hub_radius number_blades sections =
  Returned rows ->
  nth_error rows r = Some row ->
  exists tsr_r st,
    nth_error tip_speed_ratio r = Some tsr_r /\
    station_of_row row = Some st /\
    fradius st = INR r /\
    chord st = atan (2 / (3 * tsr_r)) /\
    twist st = (8 * PI * INR r * sin (atan (2 / (3 * tsr_r)))) /
               (3 * IZR number_blades * lift_coefficient * tsr_r).
Proof.
  intros Hret Hrow.
  destruct (optimum_rotor_returned_row _ _ _ _ _ _ _ _ _ _ Hret Hrow)
    as [tsr_r [Htsr ->]].
  exists tsr_r. eexists. split; [exact Htsr|].
  split; [reflexivity|]. repeat split; reflexivity.
Qed.

Lemma optimum_rotor_row_as_station_witness :
  exists tsr_r st,
    nth_error [1; 2; 3] 1 = Some tsr_r /\
    station_of_row (design_row 1 3 1 2) = Some st /\
    fradius st = INR 1 /\
    chord st = atan (2 / (3 * tsr_r)) /\
    twist st = (8 * PI * INR 1 * sin (atan (2 / (3 * tsr_r)))) /
               (3 * IZR 3 * 1 * tsr_r).
Proof.
  apply (optimum_rotor_row_as_station 1 0 [1; 2; 3] 20 0 3 2
           [design_row 1 3 0 1; design_row 1 3 1 2] 1 (design_row 1 3 1 2));
    reflexivity.
Defined.

(** ** The entries of [linear_rotor_analysis] *)

Section EntryProperties.

Variables (tip_speed_ratio : R) (number_blades : Z)
          (pitch_0 blade_radius lift_coef_slope lift_coef_intercept
           drag_coef_slope drag_coef_intercept : R).




End EntryProperties.







